(** * Item store service (src/main.py): shallow embedding and properties

    The service keeps a process-local dictionary [items_db] from integer ids
    to item dictionaries and a counter [item_id_counter]; the handlers read
    and mutate that state.  A handler is embedded as a function from the
    state to an outcome (a returned body or a raised [HTTPException]) and the
    next state; [dispatch] adds what the route decorators and the request
    models contribute (status codes, validation of the JSON body). *)

From Stdlib Require Import ZArith Sorted.
From Stdlib Require Import PrimFloat FloatOps SpecFloat.
From stdpp Require Import gmap strings list fin_maps sorting.

Local Open Scope string_scope.
Local Open Scope Z_scope.

(** A decimal literal such as [9.99] denotes the nearest binary64 value, as
    it does in Python. *)
#[local] Set Warnings "-inexact-float".

(** ** Python values and dictionaries *)

(** The values an item dictionary holds: [None], [int], [float], [str]. *)
Inductive pyval :=
  | PyNone
  | PyInt (z : Z)
  | PyFloat (f : float)
  | PyStr (s : string).

(** An item dictionary, keyed by field name.  Equality of [gmap]s is
    extensional, as [==] on Python dicts is. *)
Abbreviation pydict := (gmap string pyval).

(** [items_db]: a Python [dict] keyed by [int].  Python dicts iterate in
    insertion order and [get_all_items] exposes that order, so the dictionary
    is an association list in insertion order.  Python [int] is unbounded:
    keys are in [Z]. *)
Module Dict.
Section ops.
Context {V : Type}.
Implicit Types (d : list (Z * V)) (k : Z) (v : V).

Definition keys d : list Z := d.*1.

(** [list(d.values())] *)
Definition values d : list V := d.*2.

(** [len(d)] *)
Definition len d : Z := Z.of_nat (length d).

(** [d[k]], [None] standing for [KeyError]. *)
Fixpoint get k d : option V :=
  match d with
  | [] => None
  | (k', v') :: d' => if decide (k' = k) then Some v' else get k d'
  end.

(** [k in d] *)
Definition contains k d : bool := bool_decide (is_Some (get k d)).

(** [d[k] = v]: an existing key keeps its position, a new key goes last. *)
Fixpoint set k v d : list (Z * V) :=
  match d with
  | [] => [(k, v)]
  | (k', v') :: d' =>
      if decide (k' = k) then (k', v) :: d' else (k', v') :: set k v d'
  end.

(** The dictionary left by [d.pop(k)]. *)
Fixpoint remove k d : list (Z * V) :=
  match d with
  | [] => []
  | (k', v') :: d' =>
      if decide (k' = k) then d' else (k', v') :: remove k d'
  end.

(** [d.pop(k)]: the value and the dictionary without the key. *)
Definition pop k d : option (V * list (Z * V)) :=
  match get k d with
  | Some v => Some (v, remove k d)
  | None => None
  end.

(** The object held at [k] now has contents [v]: the entry keeps its
    position; a dictionary without the key is left as it is. *)
Fixpoint mutate k v d : list (Z * V) :=
  match d with
  | [] => []
  | (k', v') :: d' =>
      if decide (k' = k) then (k', v) :: d' else (k', v') :: mutate k v d'
  end.
End ops.
End Dict.

(** ** JSON request bodies *)

(** A JSON value as a field validator sees it; no validator of this service
    looks inside an array or a nested object. *)
Inductive json :=
  | JNull
  | JBool (b : bool)
  | JInt (z : Z)
  | JFloat (f : float)
  | JStr (s : string)
  | JArray
  | JObject.

(** A request body: a JSON object. *)
Abbreviation jobject := (gmap string json).

(** [float(z)] for a Python [int]: the nearest binary64 value.  An integer
    beyond the binary64 range has none: Python raises [OverflowError]. *)
Definition float_of_Z (z : Z) : option float :=
  let f := SF2Prim (binary_normalize prec emax z 0 false) in
  if is_finite f then Some f else None.

(** Field validation by the JSON type of the value sent: [str] takes a JSON
    string, [float] a JSON number, [int] a JSON integer, and [Optional[T]]
    also takes [null]; [None] is a validation error.  These are the values
    that the field validators of every pydantic version accept unchanged;
    values that a version accepts only by coercion (a numeric string for a
    number, a number for a string) are rejected here.  The validators of the
    installed pydantic are a parameter of [serve] below; these ones serve
    the runs of [dispatch].  No annotation in the source carries a length or
    range constraint. *)
Definition validate_str (j : json) : option string :=
  match j with JStr s => Some s | _ => None end.

Definition validate_float (j : json) : option float :=
  match j with
  | JFloat f => Some f
  | JInt z => float_of_Z z
  | _ => None
  end.

Definition validate_int (j : json) : option Z :=
  match j with JInt z => Some z | _ => None end.

Definition validate_optional {A} (v : json → option A) (j : json)
  : option (option A) :=
  match j with
  | JNull => Some None
  | _ => Some <$> v j
  end.

(** A field without default: the key must be there and its value valid. *)
Definition required {A} (v : json → option A) (k : string) (body : jobject)
  : option A :=
  body !! k ≫= v.

(** A field with default [dflt]: used when the key is not sent. *)
Definition defaulted {A} (v : json → option A) (dflt : A) (k : string)
    (body : jobject) : option A :=
  match body !! k with
  | None => Some dflt
  | Some j => v j
  end.

(** [class Item(BaseModel)] *)
Module Item.
Record t := mk {
  name : string;
  description : option string;
  price : float;
  quantity : Z;
}.

(** Parsing a body into [Item]; keys that are not fields are ignored. *)
Definition validate (body : jobject) : option t :=
  n ← required validate_str "name" body;
  d ← defaulted (validate_optional validate_str) None "description" body;
  p ← required validate_float "price" body;
  q ← defaulted validate_int 0 "quantity" body;
  Some (mk n d p q).

(** [item.dict()] *)
Definition dict (item : t) : pydict :=
  <["name" := PyStr (name item)]>
    (<["description" := from_option PyStr PyNone (description item)]>
       (<["price" := PyFloat (price item)]>
          (<["quantity" := PyInt (quantity item)]> ∅))).
End Item.

(** [class ItemUpdate(BaseModel)]: every field is [Optional] with default
    [None]; [fields_set] records the fields the request set explicitly, which
    is what [exclude_unset] consults. *)
Module ItemUpdate.
Record t := mk {
  name : option string;
  description : option string;
  price : option float;
  quantity : option Z;
  fields_set : gset string;
}.

Definition field_names : list string :=
  ["name"; "description"; "price"; "quantity"].

Definition validate (body : jobject) : option t :=
  n ← defaulted (validate_optional validate_str) None "name" body;
  d ← defaulted (validate_optional validate_str) None "description" body;
  p ← defaulted (validate_optional validate_float) None "price" body;
  q ← defaulted (validate_optional validate_int) None "quantity" body;
  Some (mk n d p q (dom body ∩ list_to_set field_names)).

(** [item_update.dict()], in field order. *)
Definition dict (u : t) : list (string * pyval) :=
  [("name", from_option PyStr PyNone (name u));
   ("description", from_option PyStr PyNone (description u));
   ("price", from_option PyFloat PyNone (price u));
   ("quantity", from_option PyInt PyNone (quantity u))].

(** [item_update.dict(exclude_unset=True)] *)
Definition dict_exclude_unset (u : t) : list (string * pyval) :=
  filter (λ kv, kv.1 ∈ fields_set u) (dict u).
End ItemUpdate.

(** ** The store and the handlers *)

Record state := mkState {
  items_db : list (Z * pydict);
  item_id_counter : Z;
}.

(** Module initialisation: [items_db = {}], [item_id_counter = 1]. *)
Definition init_state : state := mkState [] 1.

(** What a handler returns, by shape. *)
Inductive body :=
  | RootBody (message : string) (endpoints : list (string * string))
  | ItemsBody (items : list pydict) (count : Z)
  | ItemBody (item : pydict)
  | MessageBody (message : string) (item : pydict).

Inductive outcome :=
  | Return (b : body)
  | HTTPException (status_code : Z) (detail : string).

Definition read_root : outcome :=
  Return (RootBody "Welcome to the Simple REST API"
    [("GET /items", "Get all items");
     ("GET /items/{id}", "Get item by ID");
     ("POST /items", "Create new item");
     ("PUT /items/{id}", "Update item");
     ("DELETE /items/{id}", "Delete item")]).

Definition get_all_items (st : state) : outcome * state :=
  (Return (ItemsBody (Dict.values (items_db st)) (Dict.len (items_db st))), st).

Definition get_item (item_id : Z) (st : state) : outcome * state :=
  match Dict.get item_id (items_db st) with
  | None => (HTTPException 404 "Item not found", st)
  | Some item => (Return (ItemBody item), st)
  end.

(** [{"id": item_id_counter, **item.dict()}]: the entries of [item.dict()]
    are written after ["id"] and win on a common key. *)
Definition new_item (counter : Z) (item : Item.t) : pydict :=
  Item.dict item ∪ {["id" := PyInt counter]}.

Definition create_item (item : Item.t) (st : state) : outcome * state :=
  let new_item := new_item (item_id_counter st) item in
  let db := Dict.set (item_id_counter st) new_item (items_db st) in
  (Return (MessageBody "Item created successfully" new_item),
   mkState db (item_id_counter st + 1)).

(** The loop of [update_item]: each [stored_item[key] = value], in the
    order of [update_data.items()]. *)
Definition store_fields (update_data : list (string * pyval))
    (stored_item : pydict) : pydict :=
  foldl (λ stored_item kv, <[kv.1 := kv.2]> stored_item) stored_item update_data.

(** [stored_item] is the very object [items_db] holds at [item_id]: what the
    loop writes into it is what the store holds afterwards, at the same
    position. *)
Definition update_item (item_id : Z) (item_update : ItemUpdate.t) (st : state)
  : outcome * state :=
  match Dict.get item_id (items_db st) with
  | None => (HTTPException 404 "Item not found", st)
  | Some stored_item =>
      let update_data := ItemUpdate.dict_exclude_unset item_update in
      let stored_item := store_fields update_data stored_item in
      (Return (MessageBody "Item updated successfully" stored_item),
       mkState (Dict.mutate item_id stored_item (items_db st))
               (item_id_counter st))
  end.

Definition delete_item (item_id : Z) (st : state) : outcome * state :=
  match Dict.pop item_id (items_db st) with
  | None => (HTTPException 404 "Item not found", st)
  | Some (deleted_item, db) =>
      (Return (MessageBody "Item deleted successfully" deleted_item),
       mkState db (item_id_counter st))
  end.

(** ** Requests and responses *)

Inductive request :=
  | GET_root
  | GET_items
  | GET_item (item_id : Z)
  | POST_items (body : jobject)
  | PUT_item (item_id : Z) (body : jobject)
  | DELETE_item (item_id : Z).

Inductive response :=
  | Success (status : Z) (b : body)
  | Failure (status : Z) (detail : string)
  | ValidationError.

Definition status_of (r : response) : Z :=
  match r with
  | Success status _ => status
  | Failure status _ => status
  | ValidationError => 422
  end.

(** The framework's part: the success status of the route ([200] unless the
    decorator says otherwise), an [HTTPException] turned into its response.
    [Success] is the handler having returned on a route with that status;
    the encoding of the returned body, which can still fail, is [render]
    in [serve] below. *)
Definition respond (success : Z) (r : outcome * state) : response * state :=
  match r.1 with
  | Return b => (Success success b, r.2)
  | HTTPException status_code detail => (Failure status_code detail, r.2)
  end.

(** One request: a body that does not validate against the handler's model
    is answered [422] before the handler runs. *)
Definition dispatch (req : request) (st : state) : response * state :=
  match req with
  | GET_root => respond 200 (read_root, st)
  | GET_items => respond 200 (get_all_items st)
  | GET_item item_id => respond 200 (get_item item_id st)
  | POST_items body =>
      match Item.validate body with
      | Some item => respond 201 (create_item item st)
      | None => (ValidationError, st)
      end
  | PUT_item item_id body =>
      match ItemUpdate.validate body with
      | Some item_update => respond 200 (update_item item_id item_update st)
      | None => (ValidationError, st)
      end
  | DELETE_item item_id => respond 200 (delete_item item_id st)
  end.

(** A run of the service: the requests are served one after the other (the
    source has no concurrency); the trace pairs each request with its
    response. *)
Fixpoint run (reqs : list request) (st : state)
  : list (request * response) * state :=
  match reqs with
  | [] => ([], st)
  | req :: reqs' =>
      let '(resp, st') := dispatch req st in
      let '(trace, st'') := run reqs' st' in
      ((req, resp) :: trace, st'')
  end.

Definition state_after (reqs : list request) : state := (run reqs init_state).2.
Definition trace_of (reqs : list request) : list (request * response) :=
  (run reqs init_state).1.

(** ** Traces *)

(** The id a successful create reports: the ["id"] entry of the item in the
    [201] response. *)
Definition created_id (e : request * response) : option Z :=
  match e with
  | (POST_items _, Success _ (MessageBody _ item)) =>
      match item !! "id" with
      | Some (PyInt z) => Some z
      | _ => None
      end
  | _ => None
  end.

Definition assigned_ids (trace : list (request * response)) : list Z :=
  omap created_id trace.

Definition successful_create (e : request * response) : bool :=
  match e with
  | (POST_items _, Success _ _) => true
  | _ => false
  end.

Definition successful_delete (e : request * response) : bool :=
  match e with
  | (DELETE_item _, Success _ _) => true
  | _ => false
  end.

Definition count_of (p : request * response → bool)
    (trace : list (request * response)) : Z :=
  Z.of_nat (length (filter (λ e, p e = true) trace)).

(** ** The store invariant *)

(** Keys are unique (a Python dict cannot hold a key twice), the counter
    starts at 1 and every key is a value the counter has already passed. *)
Record store_inv (st : state) : Prop := mkInv {
  inv_nodup : NoDup (Dict.keys (items_db st));
  inv_counter : 1 ≤ item_id_counter st;
  inv_below : ∀ k, k ∈ Dict.keys (items_db st) → 1 ≤ k < item_id_counter st;
}.

(** The outcome of the three handlers on an id that the mapping lacks. *)
Definition not_found : outcome := HTTPException 404 "Item not found".

(** An id below the counter that is absent from the mapping. *)
Definition retired (item_id : Z) (st : state) : Prop :=
  item_id < item_id_counter st ∧ Dict.get item_id (items_db st) = None.


(** ** Concrete requests *)

(** The scenario of the specification: [{name: "Widget", price: 9.99}],
    then [{name: "Gadget", price: 5.0, quantity: 3}], then delete id 1. *)
Definition widget_body : jobject :=
  <["name" := JStr "Widget"]> (<["price" := JFloat 9.99]> ∅).

Definition gadget_body : jobject :=
  <["name" := JStr "Gadget"]>
    (<["price" := JFloat 5]> (<["quantity" := JInt 3]> ∅)).

Definition widget_record : pydict :=
  <["id" := PyInt 1]>
    (<["name" := PyStr "Widget"]>
       (<["description" := PyNone]>
          (<["price" := PyFloat 9.99]> (<["quantity" := PyInt 0]> ∅)))).

Definition two_creates : list request :=
  [POST_items widget_body; POST_items gadget_body].

Definition scenario : list request :=
  two_creates ++ [DELETE_item 1; GET_item 1; GET_item 2; POST_items widget_body].



Definition blue_widget_body : jobject :=
  <["name" := JStr "Widget"]>
    (<["description" := JStr "blue"]> (<["price" := JFloat 1]> ∅)).

Definition null_description_body : jobject := {["description" := JNull]}.

Definition null_description_update : ItemUpdate.t :=
  ItemUpdate.mk None None None None {["description"]}.

Definition price_only_update : ItemUpdate.t :=
  ItemUpdate.mk None None (Some 12.5%float) None {["price"]}.

(** ** The request as the framework serves it *)

(** What a field validator of pydantic makes of a JSON value: a value of the
    field's type, a validation error (collected and reported with 422), or
    an exception of another kind, which nothing catches (500). *)
Inductive validation (A : Type) :=
  | Valid (a : A)
  | Invalid
  | Raised.
Arguments Valid {A} a.
Arguments Invalid {A}.
Arguments Raised {A}.

(** The validators of the installed pydantic for the three annotations the
    models use.  pydantic is not part of the repository: they are a
    parameter. *)
Record validators := Validators {
  str_validator : json → validation string;
  float_validator : json → validation float;
  int_validator : json → validation Z;
}.

(** [Optional[T]]: [null] is [None], any other value goes to [T]'s
    validator. *)
Definition optional_validator {A} (v : json → validation A) (j : json)
  : validation (option A) :=
  match j with
  | JNull => Valid None
  | _ =>
      match v j with
      | Valid a => Valid (Some a)
      | Invalid => Invalid
      | Raised => Raised
      end
  end.

(** One field of a model: the value sent goes to the validator; a key that
    is not sent takes the default, and is an error when there is none. *)
Definition field {A} (v : json → validation A) (dflt : option A) (k : string)
    (body : jobject) : validation A :=
  match body !! k with
  | Some j => v j
  | None =>
      match dflt with
      | Some a => Valid a
      | None => Invalid
      end
  end.

(** The fields of a model are validated one by one and the errors are
    collected; an exception that is not a validation error ends the request
    whatever the other fields give. *)
Definition ap {A B} (f : validation (A → B)) (x : validation A) : validation B :=
  match f, x with
  | Raised, _ | _, Raised => Raised
  | Invalid, _ | _, Invalid => Invalid
  | Valid g, Valid a => Valid (g a)
  end.

(** [Item] and [ItemUpdate] built from a body; keys that are not fields are
    ignored. *)
Definition parse_item (V : validators) (body : jobject) : validation Item.t :=
  ap (ap (ap (ap (Valid Item.mk)
                 (field (str_validator V) None "name" body))
             (field (optional_validator (str_validator V)) (Some None)
                    "description" body))
         (field (float_validator V) None "price" body))
     (field (int_validator V) (Some 0) "quantity" body).

Definition parse_item_update (V : validators) (body : jobject)
  : validation ItemUpdate.t :=
  ap (ap (ap (ap (Valid (λ n d p q,
                    ItemUpdate.mk n d p q
                      (dom body ∩ list_to_set ItemUpdate.field_names)))
                 (field (optional_validator (str_validator V)) (Some None)
                        "name" body))
             (field (optional_validator (str_validator V)) (Some None)
                    "description" body))
         (field (optional_validator (float_validator V)) (Some None)
                "price" body))
     (field (optional_validator (int_validator V)) (Some None)
            "quantity" body).




(** The body a handler returns is encoded as JSON with [allow_nan=False]:
    encoding fails on a float that is infinite or not a number. *)
Definition value_renderable (v : pyval) : bool :=
  match v with
  | PyFloat f => is_finite f
  | _ => true
  end.

Definition item_renderable (item : pydict) : bool :=
  forallb value_renderable (map_to_list item).*2.

Definition body_renderable (b : body) : bool :=
  match b with
  | RootBody _ _ => true
  | ItemsBody items _ => forallb item_renderable items
  | ItemBody item => item_renderable item
  | MessageBody _ item => item_renderable item
  end.

Definition response_renderable (r : response) : bool :=
  match r with
  | Success _ b => body_renderable b
  | _ => true
  end.

(** What the client gets: the response, or 500 when an exception that is
    not an [HTTPException] ended the request. *)
Inductive answer :=
  | Answered (r : response)
  | InternalServerError.

(** The handler has run and changed the state before its return value is
    encoded. *)
Definition render (r : response * state) : answer * state :=
  (if response_renderable r.1 then Answered r.1 else InternalServerError, r.2).

(** One request, with the validators [V] and the encoding of the answer.
    The body is validated before the handler runs. *)
Definition serve (V : validators) (req : request) (st : state) : answer * state :=
  match req with
  | POST_items body =>
      match parse_item V body with
      | Valid item => render (respond 201 (create_item item st))
      | Invalid => (Answered ValidationError, st)
      | Raised => (InternalServerError, st)
      end
  | PUT_item item_id body =>
      match parse_item_update V body with
      | Valid item_update => render (respond 200 (update_item item_id item_update st))
      | Invalid => (Answered ValidationError, st)
      | Raised => (InternalServerError, st)
      end
  | _ => render (dispatch req st)
  end.

(** The validators by JSON type, as an instance. *)
Definition of_option {A} (o : option A) : validation A :=
  match o with
  | Some a => Valid a
  | None => Invalid
  end.

Definition json_typed : validators :=
  Validators (λ j, of_option (validate_str j))
             (λ j, of_option (validate_float j))
             (λ j, of_option (validate_int j)).

(** ** Further notions for the properties of the service *)

(** The routes whose handlers assign to [items_db] or [item_id_counter]:
    [create_item], [update_item], [delete_item]. *)
Definition is_write (req : request) : bool :=
  match req with
  | POST_items _ | PUT_item _ _ | DELETE_item _ => true
  | _ => false
  end.

(** The keys of the dictionary [create_item] builds: ["id"] and the four
    fields of [Item]. *)
Definition record_keys : gset string :=
  list_to_set ["id"; "name"; "description"; "price"; "quantity"].

(** An entry of [items_db] whose record carries its own key as ["id"] and
    has exactly the keys of a created record. *)
Definition well_formed_entry (e : Z * pydict) : Prop :=
  e.2 !! "id" = Some (PyInt e.1) ∧ dom e.2 = record_keys.

(** More concrete requests. *)
Definition gadget_record : pydict :=
  <["id" := PyInt 2]>
    (<["name" := PyStr "Gadget"]>
       (<["description" := PyNone]>
          (<["price" := PyFloat 5]> (<["quantity" := PyInt 3]> ∅)))).

Definition name_update : ItemUpdate.t :=
  ItemUpdate.mk (Some "Gizmo") None None None {["name"]}.

Definition null_name_body : jobject := {["name" := JNull]}.

Definition null_name_update : ItemUpdate.t :=
  ItemUpdate.mk None None None None {["name"]}.


(** A create body whose price is not finite (JSON [1e999] is read as
    infinity). *)
Definition infinite_price_body : jobject :=
  <["name" := JStr "Widget"]> (<["price" := JFloat infinity]> ∅).

(** ** Facts about the insertion-ordered dictionary *)

Section dict_facts.
Context {V : Type}.
Implicit Types (d : list (Z * V)) (k : Z) (v : V).

Lemma get_is_Some k d : is_Some (Dict.get k d) ↔ k ∈ Dict.keys d.
Proof.
  unfold Dict.keys. induction d as [|[k' v'] d IH]; simpl.
  - split; [intros [? ?]; discriminate | intros H; inversion H].
  - rewrite elem_of_cons. case_decide; subst.
    + split; eauto.
    + rewrite IH. split; [tauto | intros [?|?]; [congruence | done]].
Qed.

Lemma get_None k d : Dict.get k d = None ↔ k ∉ Dict.keys d.
Proof. rewrite <- get_is_Some, eq_None_not_Some. tauto. Qed.

Lemma contains_true k d : Dict.contains k d = true ↔ k ∈ Dict.keys d.
Proof. unfold Dict.contains. rewrite bool_decide_eq_true. apply get_is_Some. Qed.

Lemma contains_false k d : Dict.contains k d = false ↔ Dict.get k d = None.
Proof.
  unfold Dict.contains. rewrite bool_decide_eq_false, eq_None_not_Some. tauto.
Qed.

Lemma get_elem_of k v d : Dict.get k d = Some v → (k, v) ∈ d.
Proof.
  induction d as [|[k' v'] d IH]; simpl; [discriminate|].
  case_decide; subst.
  - intros [= ->]. left.
  - intros. right. auto.
Qed.

Lemma elem_of_get k v d : NoDup (Dict.keys d) → (k, v) ∈ d → Dict.get k d = Some v.
Proof.
  unfold Dict.keys. induction d as [|[k' v'] d IH]; simpl.
  - intros _ H. inversion H.
  - rewrite NoDup_cons, elem_of_cons. intros [Hk Hd] [[= -> ->]|Hin].
    + by rewrite decide_True.
    + rewrite decide_False; [auto|].
      intros ->. apply Hk. apply list_elem_of_fmap. by exists (k, v).
Qed.

(** *** [d[k] = v] *)

Lemma get_set_eq k v d : Dict.get k (Dict.set k v d) = Some v.
Proof.
  induction d as [|[k' v'] d IH]; simpl.
  - by rewrite decide_True.
  - case_decide; simpl; [by rewrite decide_True | by rewrite decide_False].
Qed.

Lemma get_set_ne k k' v d : k ≠ k' → Dict.get k' (Dict.set k v d) = Dict.get k' d.
Proof.
  intros Hne. induction d as [|[k0 v0] d IH]; simpl.
  - by rewrite decide_False.
  - case_decide; subst; simpl.
    + by rewrite !decide_False.
    + by rewrite IH.
Qed.

Lemma set_fresh k v d : k ∉ Dict.keys d → Dict.set k v d = (d ++ [(k, v)])%list.
Proof.
  unfold Dict.keys. induction d as [|[k' v'] d IH]; simpl; [done|].
  rewrite not_elem_of_cons. intros [Hne Hd].
  rewrite decide_False by done. by rewrite IH.
Qed.

(** *** [d.pop(k)] *)

Lemma keys_remove_subseteq k d : Dict.keys (Dict.remove k d) ⊆ Dict.keys d.
Proof.
  unfold Dict.keys. induction d as [|[k' v'] d IH]; simpl; [done|].
  case_decide; simpl.
  - by apply list_subseteq_cons.
  - by apply list_subseteq_skip.
Qed.

Lemma get_remove_ne k k' d : k ≠ k' → Dict.get k' (Dict.remove k d) = Dict.get k' d.
Proof.
  intros Hne. induction d as [|[k0 v0] d IH]; simpl; [done|].
  case_decide; subst; simpl.
  - by rewrite decide_False.
  - by rewrite IH.
Qed.

Lemma get_remove_eq k d : NoDup (Dict.keys d) → Dict.get k (Dict.remove k d) = None.
Proof.
  unfold Dict.keys. induction d as [|[k' v'] d IH]; simpl; [done|].
  rewrite NoDup_cons. intros [Hk Hd]. case_decide; subst; simpl.
  - by apply get_None.
  - rewrite decide_False by done. auto.
Qed.

Lemma NoDup_remove k d : NoDup (Dict.keys d) → NoDup (Dict.keys (Dict.remove k d)).
Proof.
  unfold Dict.keys. induction d as [|[k' v'] d IH]; simpl; [done|].
  rewrite NoDup_cons. intros [Hk Hd]. case_decide; simpl; [done|].
  apply NoDup_cons. split; [|auto].
  intros Hin. apply Hk. by apply (keys_remove_subseteq k d).
Qed.

Lemma length_remove k d :
  k ∈ Dict.keys d → S (length (Dict.remove k d)) = length d.
Proof.
  unfold Dict.keys. induction d as [|[k' v'] d IH]; simpl.
  - intros H. inversion H.
  - rewrite elem_of_cons. case_decide; simpl; [done|].
    intros [?|?]; [congruence | f_equal; auto].
Qed.

(** The entries other than [k] stay, in their order. *)
Lemma remove_filter k d :
  NoDup (Dict.keys d) → Dict.remove k d = filter (λ kv, kv.1 ≠ k) d.
Proof.
  unfold Dict.keys. induction d as [|[k' v'] d IH]; simpl; [done|].
  rewrite NoDup_cons. intros [Hk Hd]. case_decide; subst.
  - rewrite filter_cons_False by (simpl; tauto).
    clear IH Hd. induction d as [|[k0 v0] d IH]; [done|].
    simpl in Hk. rewrite not_elem_of_cons in Hk. destruct Hk as [Hne Hk].
    rewrite filter_cons_True by (simpl; congruence). f_equal. auto.
  - rewrite filter_cons_True by done. f_equal. auto.
Qed.

(** *** In-place mutation of the object at [k] *)

Lemma keys_mutate k v d : Dict.keys (Dict.mutate k v d) = Dict.keys d.
Proof.
  unfold Dict.keys. induction d as [|[k' v'] d IH]; simpl; [done|].
  case_decide; simpl; [done | by f_equal].
Qed.

Lemma get_mutate_eq k v d :
  is_Some (Dict.get k d) → Dict.get k (Dict.mutate k v d) = Some v.
Proof.
  induction d as [|[k' v'] d IH]; simpl.
  - intros [? ?]; discriminate.
  - case_decide; simpl; [by rewrite decide_True | by rewrite decide_False].
Qed.

Lemma get_mutate_ne k k' v d :
  k ≠ k' → Dict.get k' (Dict.mutate k v d) = Dict.get k' d.
Proof.
  intros Hne. induction d as [|[k0 v0] d IH]; simpl; [done|].
  case_decide; subst; simpl.
  - by rewrite !decide_False.
  - by rewrite IH.
Qed.

Lemma mutate_same k v d : Dict.get k d = Some v → Dict.mutate k v d = d.
Proof.
  induction d as [|[k' v'] d IH]; simpl; [done|].
  case_decide; [by intros [= ->] | intros; f_equal; auto].
Qed.

Lemma mutate_mutate k v v' d :
  Dict.mutate k v (Dict.mutate k v' d) = Dict.mutate k v d.
Proof.
  induction d as [|[k0 v0] d IH]; simpl; [done|].
  case_decide; simpl.
  - by rewrite decide_True.
  - rewrite decide_False by done. by rewrite IH.
Qed.

Lemma mutate_absent k v d : Dict.get k d = None → Dict.mutate k v d = d.
Proof.
  induction d as [|[k' v'] d IH]; simpl; [done|].
  case_decide; [done | intros; f_equal; auto].
Qed.
End dict_facts.

(** ** Preservation of the invariant *)

Lemma new_item_id counter item : new_item counter item !! "id" = Some (PyInt counter).
Proof.
  unfold new_item, Item.dict. apply lookup_union_Some_raw. right.
  split; [|by rewrite lookup_singleton_eq].
  by rewrite !lookup_insert_ne, lookup_empty.
Qed.

Lemma store_inv_init : store_inv init_state.
Proof. split; simpl; [constructor | lia | intros k H; inversion H]. Qed.

Lemma counter_fresh st : store_inv st → item_id_counter st ∉ Dict.keys (items_db st).
Proof. intros [_ _ Hb] Hin. apply Hb in Hin. lia. Qed.

Lemma create_item_state item st :
  store_inv st →
  (create_item item st).2 =
    mkState (items_db st ++ [(item_id_counter st, new_item (item_id_counter st) item)])
            (item_id_counter st + 1).
Proof. intros Hinv. simpl. by rewrite set_fresh by by apply counter_fresh. Qed.

Lemma create_item_inv item st : store_inv st → store_inv (create_item item st).2.
Proof.
  intros Hinv. rewrite create_item_state by done. destruct Hinv as [Hnd Hc Hb].
  split; simpl; [|lia|]; unfold Dict.keys in *; rewrite fmap_app; simpl.
  - apply NoDup_app. split; [done|]. split; [|apply NoDup_singleton].
    intros k Hk. rewrite list_elem_of_singleton. intros ->. apply Hb in Hk. lia.
  - intros k. rewrite elem_of_app, list_elem_of_singleton.
    intros [Hk| ->]; [apply Hb in Hk|]; lia.
Qed.

Lemma update_item_inv item_id u st :
  store_inv st → store_inv (update_item item_id u st).2.
Proof.
  intros [Hnd Hc Hb]. unfold update_item.
  destruct (Dict.get item_id (items_db st)); [|done].
  split; simpl; [|done|]; by rewrite keys_mutate.
Qed.

Lemma delete_item_inv item_id st :
  store_inv st → store_inv (delete_item item_id st).2.
Proof.
  intros [Hnd Hc Hb]. unfold delete_item, Dict.pop.
  destruct (Dict.get item_id (items_db st)); [|done].
  split; simpl; [by apply NoDup_remove|done|].
  intros k Hk. apply Hb. by apply (keys_remove_subseteq item_id).
Qed.

Lemma respond_state code r : (respond code r).2 = r.2.
Proof. unfold respond. by destruct r.1. Qed.

Lemma dispatch_inv req st : store_inv st → store_inv (dispatch req st).2.
Proof.
  intros Hinv. destruct req as [| |i|b|i b|i]; simpl;
    repeat case_match; rewrite ?respond_state; try done.
  - unfold get_item. by case_match.
  - by apply create_item_inv.
  - by apply update_item_inv.
  - by apply delete_item_inv.
Qed.

Lemma dispatch_counter_mono req st :
  item_id_counter st ≤ item_id_counter (dispatch req st).2.
Proof.
  destruct req as [| |i|b|i b|i]; simpl;
    repeat case_match; rewrite ?respond_state; try done;
    unfold get_item, update_item, delete_item; simpl;
    repeat case_match; simpl; lia.
Qed.

Lemma run_cons req reqs st :
  run (req :: reqs) st =
    (((req, (dispatch req st).1) :: (run reqs (dispatch req st).2).1),
     (run reqs (dispatch req st).2).2).
Proof.
  cbn [run]. destruct (dispatch req st) as [resp st']. cbn [fst snd].
  by destruct (run reqs st') as [trace st''].
Qed.

Lemma run_app reqs1 reqs2 st :
  run (reqs1 ++ reqs2) st =
    (((run reqs1 st).1 ++ (run reqs2 (run reqs1 st).2).1)%list,
     (run reqs2 (run reqs1 st).2).2).
Proof.
  revert st. induction reqs1 as [|req reqs1 IH]; intros st.
  - simpl. by destruct (run reqs2 st).
  - rewrite <- app_comm_cons, !run_cons, IH. done.
Qed.

Lemma run_inv reqs st : store_inv st → store_inv (run reqs st).2.
Proof.
  revert st. induction reqs as [|req reqs IH]; intros st Hinv; [done|].
  rewrite run_cons. simpl. apply IH. by apply dispatch_inv.
Qed.

Lemma run_counter_mono reqs st :
  item_id_counter st ≤ item_id_counter (run reqs st).2.
Proof.
  revert st. induction reqs as [|req reqs IH]; intros st; [done|].
  rewrite run_cons. simpl.
  etrans; [apply (dispatch_counter_mono req)|apply IH].
Qed.

Lemma state_after_inv reqs : store_inv (state_after reqs).
Proof. apply run_inv, store_inv_init. Qed.

Lemma state_after_app reqs1 reqs2 :
  state_after (reqs1 ++ reqs2) = (run reqs2 (state_after reqs1)).2.
Proof. unfold state_after. by rewrite run_app. Qed.

(** ** Assigned ids *)

Lemma created_id_dispatch req st c :
  created_id (req, (dispatch req st).1) = Some c →
  c = item_id_counter st ∧ item_id_counter (dispatch req st).2 = c + 1.
Proof.
  destruct req as [| |i|b|i b|i]; simpl; try done.
  destruct (Item.validate b) as [item|]; [|done].
  unfold respond; simpl. rewrite new_item_id. by intros [= <-].
Qed.

Lemma successful_create_id req st :
  successful_create (req, (dispatch req st).1) = true →
  created_id (req, (dispatch req st).1) = Some (item_id_counter st).
Proof.
  destruct req as [| |i|b|i b|i]; simpl; try done.
  destruct (Item.validate b) as [item|]; [|done].
  unfold respond; simpl. by rewrite new_item_id.
Qed.

Lemma assigned_ids_cons req reqs st :
  assigned_ids (run (req :: reqs) st).1 =
    match created_id (req, (dispatch req st).1) with
    | Some c => c :: assigned_ids (run reqs (dispatch req st).2).1
    | None => assigned_ids (run reqs (dispatch req st).2).1
    end.
Proof. rewrite run_cons. unfold assigned_ids. simpl. by case_match. Qed.

Lemma assigned_ids_bounds reqs st :
  Forall (λ c, item_id_counter st ≤ c < item_id_counter (run reqs st).2)
         (assigned_ids (run reqs st).1).
Proof.
  revert st. induction reqs as [|req reqs IH]; intros st; [constructor|].
  rewrite assigned_ids_cons, run_cons. cbn [snd].
  pose proof (IH (dispatch req st).2) as Htl.
  pose proof (dispatch_counter_mono req st) as Hmono.
  pose proof (run_counter_mono reqs (dispatch req st).2) as Hrun.
  destruct (created_id (req, (dispatch req st).1)) as [c|] eqn:Hc.
  - apply created_id_dispatch in Hc as [-> Hnext].
    constructor; [lia|]. eapply Forall_impl; [exact Htl|]. simpl. intros; lia.
  - eapply Forall_impl; [exact Htl|]. simpl. intros; lia.
Qed.

Lemma assigned_ids_sorted reqs st :
  StronglySorted Z.lt (assigned_ids (run reqs st).1).
Proof.
  revert st. induction reqs as [|req reqs IH]; intros st; [constructor|].
  rewrite assigned_ids_cons.
  destruct (created_id (req, (dispatch req st).1)) as [c|] eqn:Hc; [|apply IH].
  apply created_id_dispatch in Hc as [-> Hnext].
  constructor; [apply IH|].
  eapply Forall_impl; [apply assigned_ids_bounds|]. simpl. intros; lia.
Qed.

Lemma assigned_ids_length reqs st :
  Z.of_nat (length (assigned_ids (run reqs st).1)) =
    count_of successful_create (run reqs st).1.
Proof.
  unfold count_of. f_equal.
  revert st. induction reqs as [|req reqs IH]; intros st; [done|].
  rewrite assigned_ids_cons, run_cons. cbn [fst].
  destruct (successful_create (req, (dispatch req st).1)) eqn:Hs.
  - rewrite (successful_create_id _ _ Hs), filter_cons_True by done.
    simpl. by rewrite IH.
  - rewrite filter_cons_False by (rewrite Hs; done).
    destruct (created_id (req, (dispatch req st).1)) as [c|] eqn:Hc; [|apply IH].
    exfalso. destruct req as [| |i|b|i b|i]; simpl in *; try done.
    destruct (Item.validate b); simpl in *; done.
Qed.

(** C1: in every run of the service from its initial state, whatever
    requests are interleaved, the ids reported by the successful creates are
    strictly increasing in the order of the creates (one id per successful
    create), and every key the mapping holds at any point of the run is below
    the counter from then on: an id is never assigned twice, also after a
    delete. *)
Theorem ids_strictly_increasing (reqs : list request) :
  StronglySorted Z.lt (assigned_ids (trace_of reqs)) ∧
  Z.of_nat (length (assigned_ids (trace_of reqs))) =
    count_of successful_create (trace_of reqs) ∧
  ∀ (n : nat) (k : Z),
    k ∈ Dict.keys (items_db (state_after (take n reqs))) →
    k < item_id_counter (state_after reqs).
Proof.
  split; [apply assigned_ids_sorted|]. split; [apply assigned_ids_length|].
  intros n k Hk. apply (inv_below _ (state_after_inv _)) in Hk.
  pose proof (run_counter_mono (drop n reqs) (state_after (take n reqs))) as Hmono.
  rewrite <- state_after_app, take_drop in Hmono. lia.
Qed.

(** ** Not found *)

(** C5: for every id and every store state, each of [get_item],
    [update_item] and [delete_item] raises the 404 [HTTPException] exactly
    when the id is absent from the mapping; it is the only exception they
    raise; and when they raise it the store state is unchanged. *)
Theorem not_found_iff_absent (item_id : Z) (item_update : ItemUpdate.t) (st : state) :
  ((get_item item_id st).1 = not_found ↔ Dict.contains item_id (items_db st) = false) ∧
  ((update_item item_id item_update st).1 = not_found
     ↔ Dict.contains item_id (items_db st) = false) ∧
  ((delete_item item_id st).1 = not_found ↔ Dict.contains item_id (items_db st) = false) ∧
  (∀ status detail,
     (get_item item_id st).1 = HTTPException status detail ∨
     (update_item item_id item_update st).1 = HTTPException status detail ∨
     (delete_item item_id st).1 = HTTPException status detail →
     status = 404 ∧ Dict.contains item_id (items_db st) = false) ∧
  (Dict.contains item_id (items_db st) = false →
     (get_item item_id st).2 = st ∧
     (update_item item_id item_update st).2 = st ∧
     (delete_item item_id st).2 = st).
Proof.
  rewrite !contains_false.
  unfold get_item, update_item, delete_item, Dict.pop, not_found.
  destruct (Dict.get item_id (items_db st)) as [item|] eqn:Hget; simpl.
  - split_and!; try done. intros status detail [?|[?|?]]; done.
  - split_and!; try done. intros status detail [H|[H|H]]; injection H as <- _;
      by rewrite ?contains_false.
Qed.

(** ** Delete *)

Lemma dispatch_retired item_id req st :
  retired item_id st → retired item_id (dispatch req st).2.
Proof.
  intros [Hlt Habs]. split.
  { pose proof (dispatch_counter_mono req st). lia. }
  destruct req as [| |i|b|i b|i]; simpl;
    repeat case_match; rewrite ?respond_state; try done.
  - unfold get_item. by case_match.
  - simpl. rewrite get_set_ne by lia. done.
  - unfold update_item. case_match; [|done]. simpl.
    destruct (decide (i = item_id)) as [->|Hne]; [congruence|].
    by rewrite get_mutate_ne.
  - unfold delete_item, Dict.pop.
    destruct (Dict.get i (items_db st)) eqn:Hg; [|done]. simpl.
    destruct (decide (i = item_id)) as [->|Hne]; [congruence|].
    by rewrite get_remove_ne.
Qed.

Lemma run_retired item_id reqs st :
  retired item_id st → retired item_id (run reqs st).2.
Proof.
  revert st. induction reqs as [|req reqs IH]; intros st Hr; [done|].
  rewrite run_cons. cbn [snd]. by apply IH, dispatch_retired.
Qed.

(** C6: in every reachable store state, for every id the mapping holds,
    [delete_item] returns the record held at that id, leaves the mapping
    with exactly the other entries (in their order) and the counter as it
    was, and [GET /items/{id}] answers 404 right after it and after any
    further requests (no later create can assign the id again). *)
Theorem delete_removes_item (reqs later : list request) (item_id : Z) (item : pydict) :
  Dict.get item_id (items_db (state_after reqs)) = Some item →
  (delete_item item_id (state_after reqs)).1 =
    Return (MessageBody "Item deleted successfully" item) ∧
  items_db (delete_item item_id (state_after reqs)).2 =
    filter (λ kv, kv.1 ≠ item_id) (items_db (state_after reqs)) ∧
  (∀ k, k ≠ item_id →
     Dict.get k (items_db (delete_item item_id (state_after reqs)).2) =
       Dict.get k (items_db (state_after reqs))) ∧
  item_id_counter (delete_item item_id (state_after reqs)).2 =
    item_id_counter (state_after reqs) ∧
  get_item item_id (delete_item item_id (state_after reqs)).2 =
    (HTTPException 404 "Item not found", (delete_item item_id (state_after reqs)).2) ∧
  (dispatch (GET_item item_id)
     (run later (delete_item item_id (state_after reqs)).2).2).1 =
    Failure 404 "Item not found".
Proof.
  intros Hget. pose proof (state_after_inv reqs) as [Hnd Hc Hb].
  assert (retired item_id (delete_item item_id (state_after reqs)).2) as Hret.
  { unfold delete_item, Dict.pop. rewrite Hget. split; simpl.
    - apply Hb, get_is_Some. by rewrite Hget.
    - by apply get_remove_eq. }
  unfold delete_item, Dict.pop in *. rewrite Hget in *. simpl in *.
  split_and!; try done.
  - by apply remove_filter.
  - intros k Hne. by apply get_remove_ne.
  - destruct Hret as [_ Habs]. simpl in Habs. unfold get_item. simpl. by rewrite Habs.
  - apply (run_retired _ later) in Hret as [_ Habs].
    unfold respond, get_item. by rewrite Habs.
Qed.

(** ** Create then get *)

(** C7: for every validated create input and every store state,
    [create_item] returns the new record, whose ["id"] is the counter value
    it was assigned, and [get_item] with that id on the state right after
    the create returns the very same record. *)
Theorem get_after_create (item : Item.t) (st : state) :
  (create_item item st).1 =
    Return (MessageBody "Item created successfully" (new_item (item_id_counter st) item)) ∧
  new_item (item_id_counter st) item !! "id" = Some (PyInt (item_id_counter st)) ∧
  get_item (item_id_counter st) (create_item item st).2 =
    (Return (ItemBody (new_item (item_id_counter st) item)), (create_item item st).2).
Proof.
  split; [done|]. split; [apply new_item_id|].
  unfold get_item. simpl. by rewrite get_set_eq.
Qed.

(** ** Update *)

Lemma store_fields_union update_data stored_item :
  store_fields update_data stored_item =
    list_to_map (reverse update_data) ∪ stored_item.
Proof.
  unfold store_fields. revert stored_item.
  induction update_data as [|[k v] l IH]; intros d; simpl.
  - by rewrite (left_id_L ∅ (∪)).
  - rewrite IH, reverse_cons, list_to_map_app. simpl.
    rewrite <- (assoc_L (∪)). f_equal.
    by rewrite insert_empty, <- insert_union_singleton_l.
Qed.

Lemma store_fields_idemp update_data stored_item :
  store_fields update_data (store_fields update_data stored_item) =
    store_fields update_data stored_item.
Proof.
  rewrite !store_fields_union, (assoc_L (∪)). f_equal. apply (idemp_L (∪)).
Qed.

Lemma store_fields_lookup (u : ItemUpdate.t) (stored_item : pydict) (k : string) :
  store_fields (ItemUpdate.dict_exclude_unset u) stored_item !! k =
    if decide (k ∈ ItemUpdate.fields_set u)
    then match list_to_map (M := pydict) (ItemUpdate.dict u) !! k with
         | Some v => Some v
         | None => stored_item !! k
         end
    else stored_item !! k.
Proof.
  unfold ItemUpdate.dict_exclude_unset, ItemUpdate.dict, store_fields.
  rewrite !filter_cons, filter_nil. cbn [fst snd list_to_map foldr].
  destruct (decide (k = "name")) as [->|Hn];
    [|destruct (decide (k = "description")) as [->|Hd];
      [|destruct (decide (k = "price")) as [->|Hp];
        [|destruct (decide (k = "quantity")) as [->|Hq]]]];
    repeat case_decide; cbn [foldl fst snd];
    repeat (rewrite lookup_insert_eq || rewrite lookup_insert_ne by done
            || rewrite lookup_empty); done.
Qed.

Lemma dict_lookup_field (u : ItemUpdate.t) (k : string) (v : pyval) :
  (k, v) ∈ ItemUpdate.dict u →
  k ∈ ItemUpdate.field_names ∧
  list_to_map (M := pydict) (ItemUpdate.dict u) !! k = Some v.
Proof.
  unfold ItemUpdate.dict, ItemUpdate.field_names.
  rewrite !elem_of_cons, elem_of_nil.
  intros [[= -> ->]|[[= -> ->]|[[= -> ->]|[[= -> ->]|[]]]]];
    (split; [set_solver|done]).
Qed.

Lemma dict_lookup_other (u : ItemUpdate.t) (k : string) :
  k ∉ ItemUpdate.field_names →
  list_to_map (M := pydict) (ItemUpdate.dict u) !! k = None.
Proof.
  unfold ItemUpdate.dict, ItemUpdate.field_names.
  rewrite !not_elem_of_cons. intros (? & ? & ? & ? & _). simpl.
  by rewrite !lookup_insert_ne, lookup_empty.
Qed.

(** C2: for every store state, every id the mapping holds and every
    partial update input, [update_item] returns the updated record, which is
    also what the mapping holds at that id afterwards; each field of the
    partial input is overwritten with the input's value exactly when the
    input sets it, and keeps the stored value otherwise; every other key of
    the record, ["id"] among them, keeps its value; an input that sets no
    field leaves the record and the whole store unchanged; the other entries
    of the mapping and the order of its keys are untouched. *)
Theorem update_overwrites_present_fields
    (item_id : Z) (item_update : ItemUpdate.t) (st : state) (stored_item : pydict) :
  Dict.get item_id (items_db st) = Some stored_item →
  ∃ updated : pydict,
    update_item item_id item_update st =
      (Return (MessageBody "Item updated successfully" updated),
       mkState (Dict.mutate item_id updated (items_db st)) (item_id_counter st)) ∧
    Dict.get item_id (items_db (update_item item_id item_update st).2) = Some updated ∧
    (∀ k v, (k, v) ∈ ItemUpdate.dict item_update →
       updated !! k =
         if decide (k ∈ ItemUpdate.fields_set item_update)
         then Some v else stored_item !! k) ∧
    (∀ k, k ∉ ItemUpdate.field_names → updated !! k = stored_item !! k) ∧
    updated !! "id" = stored_item !! "id" ∧
    ((∀ k, k ∈ ItemUpdate.field_names → k ∉ ItemUpdate.fields_set item_update) →
       updated = stored_item ∧ (update_item item_id item_update st).2 = st) ∧
    (∀ k, k ≠ item_id →
       Dict.get k (items_db (update_item item_id item_update st).2) =
         Dict.get k (items_db st)) ∧
    Dict.keys (items_db (update_item item_id item_update st).2) =
      Dict.keys (items_db st).
Proof.
  intros Hget.
  exists (store_fields (ItemUpdate.dict_exclude_unset item_update) stored_item).
  assert (∀ k, k ∉ ItemUpdate.field_names →
            store_fields (ItemUpdate.dict_exclude_unset item_update) stored_item !! k =
              stored_item !! k) as Hother.
  { intros k Hk. rewrite store_fields_lookup, dict_lookup_other by done.
    by case_decide. }
  unfold update_item. rewrite Hget. cbn [fst snd items_db].
  split_and!; [reflexivity| | | exact Hother | | | |].
  - apply get_mutate_eq. by rewrite Hget.
  - intros k v [Hk Hv]%dict_lookup_field. by rewrite store_fields_lookup, Hv.
  - apply Hother. unfold ItemUpdate.field_names.
    rewrite !not_elem_of_cons. split_and!; try done. apply not_elem_of_nil.
  - intros Hunset.
    assert (store_fields (ItemUpdate.dict_exclude_unset item_update) stored_item =
              stored_item) as ->.
    { apply map_eq. intros k. rewrite store_fields_lookup.
      case_decide as Hin; [|done].
      rewrite dict_lookup_other; [done|]. intros Hk. by apply (Hunset k). }
    split; [done|]. destruct st as [db c]. simpl in *. f_equal.
    by apply mutate_same.
  - intros k Hne. by apply get_mutate_ne.
  - apply keys_mutate.
Qed.

(** C10: applying the same [update_item] twice in succession gives the
    same response and leaves the same store as applying it once (for an id
    the mapping holds; for an absent id both calls raise 404 and change
    nothing). *)
Theorem update_idempotent (item_id : Z) (item_update : ItemUpdate.t) (st : state) :
  update_item item_id item_update (update_item item_id item_update st).2 =
    update_item item_id item_update st.
Proof.
  unfold update_item.
  destruct (Dict.get item_id (items_db st)) as [stored_item|] eqn:Hget; simpl.
  - rewrite get_mutate_eq by (by rewrite Hget).
    by rewrite store_fields_idemp, mutate_mutate.
  - by rewrite Hget.
Qed.

(** ** List *)

Lemma count_of_cons p e trace :
  count_of p (e :: trace) = (if p e then 1 else 0) + count_of p trace.
Proof.
  unfold count_of. destruct (p e) eqn:Hp.
  - rewrite filter_cons_True by done. simpl length. lia.
  - rewrite filter_cons_False by (rewrite Hp; done). lia.
Qed.

Lemma dispatch_len req st :
  store_inv st →
  Dict.len (items_db (dispatch req st).2) =
    Dict.len (items_db st)
    + (if successful_create (req, (dispatch req st).1) then 1 else 0)
    - (if successful_delete (req, (dispatch req st).1) then 1 else 0).
Proof.
  intros Hinv. unfold Dict.len.
  destruct req as [| |i|b|i b|i]; cbn [dispatch].
  - simpl. lia.
  - simpl. lia.
  - unfold respond, get_item. destruct (Dict.get i (items_db st)); simpl; lia.
  - destruct (Item.validate b) as [item|]; [|simpl; lia].
    unfold respond. rewrite create_item_state by done. simpl.
    rewrite length_app. simpl. lia.
  - destruct (ItemUpdate.validate b) as [u|]; [|simpl; lia].
    unfold respond, update_item.
    destruct (Dict.get i (items_db st)) as [g|]; simpl; [|lia].
    pose proof (keys_mutate i (store_fields (ItemUpdate.dict_exclude_unset u) g)
                  (items_db st)) as Hk.
    apply (f_equal length) in Hk. unfold Dict.keys in Hk.
    rewrite !length_fmap in Hk. lia.
  - unfold respond, delete_item, Dict.pop.
    destruct (Dict.get i (items_db st)) as [item|] eqn:Hget; simpl; [|lia].
    assert (i ∈ Dict.keys (items_db st)) as Hin by (apply get_is_Some; by rewrite Hget).
    apply length_remove in Hin. lia.
Qed.

Lemma run_len reqs st :
  store_inv st →
  Dict.len (items_db (run reqs st).2) =
    Dict.len (items_db st)
    + count_of successful_create (run reqs st).1
    - count_of successful_delete (run reqs st).1.
Proof.
  revert st. induction reqs as [|req reqs IH]; intros st Hinv.
  - unfold count_of. simpl. lia.
  - rewrite run_cons. cbn [fst snd]. rewrite !count_of_cons.
    rewrite IH by by apply dispatch_inv. rewrite dispatch_len by done. lia.
Qed.

(** C8: in every reachable store state, [get_all_items] succeeds, leaves
    the state as it is and returns the values of the mapping (an item is in
    the list exactly when the mapping holds it at some id) together with
    their count, and that count is the number of successful creates minus
    the number of successful deletes of the run so far. *)
Theorem list_returns_all_items (reqs : list request) :
  get_all_items (state_after reqs) =
    (Return (ItemsBody (Dict.values (items_db (state_after reqs)))
                       (Dict.len (items_db (state_after reqs)))),
     state_after reqs) ∧
  (∀ item, item ∈ Dict.values (items_db (state_after reqs))
           ↔ ∃ k, Dict.get k (items_db (state_after reqs)) = Some item) ∧
  Dict.len (items_db (state_after reqs)) =
    Z.of_nat (length (Dict.values (items_db (state_after reqs)))) ∧
  Dict.len (items_db (state_after reqs)) =
    count_of successful_create (trace_of reqs)
    - count_of successful_delete (trace_of reqs).
Proof.
  split_and!.
  - done.
  - intros item. unfold Dict.values. rewrite list_elem_of_fmap. split.
    + intros [[k v] [-> Hin]]. exists k.
      apply elem_of_get; [apply (inv_nodup _ (state_after_inv reqs))|done].
    + intros [k Hget]. exists (k, item). split; [done|by apply get_elem_of].
  - unfold Dict.len, Dict.values. by rewrite length_fmap.
  - unfold state_after, trace_of. rewrite run_len by apply store_inv_init.
    unfold Dict.len. simpl. lia.
Qed.

(** ** Validation of the create body *)


(** ** Explicit null in an update *)

Lemma validate_update (body : jobject) (u : ItemUpdate.t) :
  ItemUpdate.validate body = Some u →
  ItemUpdate.fields_set u = dom body ∩ list_to_set ItemUpdate.field_names ∧
  (body !! "description" = Some JNull → ItemUpdate.description u = None).
Proof.
  unfold ItemUpdate.validate.
  destruct (defaulted _ None "name" body) as [n|]; [simpl|done].
  destruct (defaulted _ None "description" body) as [d|] eqn:Hd; [simpl|done].
  destruct (defaulted _ None "price" body) as [p|]; [simpl|done].
  destruct (defaulted _ None "quantity" body) as [q|]; [simpl|done].
  intros [= <-]. split; [done|]. simpl. intros Hnull.
  unfold defaulted in Hd. rewrite Hnull in Hd. simpl in Hd. congruence.
Qed.

Lemma description_set (body : jobject) :
  "description" ∈ dom body ∩ list_to_set (C := gset string) ItemUpdate.field_names
    ↔ is_Some (body !! "description").
Proof.
  rewrite elem_of_intersection, elem_of_dom, elem_of_list_to_set.
  unfold ItemUpdate.field_names. rewrite !elem_of_cons.
  split; [by intros [? _] | intros H; split; [done | right; by left]].
Qed.

(** C4 (amended): for every stored item and every valid update body, an
    update whose body sets [description] explicitly to [null] makes the
    stored [description] [None]; a body without the key leaves the stored
    [description] as it was. *)
Theorem update_explicit_null
    (item_id : Z) (body : jobject) (item_update : ItemUpdate.t) (st : state)
    (stored_item : pydict) :
  Dict.get item_id (items_db st) = Some stored_item →
  ItemUpdate.validate body = Some item_update →
  ∃ updated : pydict,
    dispatch (PUT_item item_id body) st =
      (Success 200 (MessageBody "Item updated successfully" updated),
       mkState (Dict.mutate item_id updated (items_db st)) (item_id_counter st)) ∧
    Dict.get item_id (items_db (dispatch (PUT_item item_id body) st).2) = Some updated ∧
    (body !! "description" = Some JNull → updated !! "description" = Some PyNone) ∧
    (body !! "description" = None →
       updated !! "description" = stored_item !! "description").
Proof.
  intros Hget Hval. destruct (validate_update _ _ Hval) as [Hset Hnull].
  exists (store_fields (ItemUpdate.dict_exclude_unset item_update) stored_item).
  cbn [dispatch]. rewrite Hval. unfold respond, update_item. rewrite Hget.
  cbn [fst snd items_db]. split_and!; [done| | |].
  - apply get_mutate_eq. by rewrite Hget.
  - intros Hb. rewrite store_fields_lookup, Hset, decide_True
      by (apply description_set; by rewrite Hb).
    simpl. rewrite lookup_insert_ne, lookup_insert_eq by done.
    by rewrite Hnull.
  - intros Hb. rewrite store_fields_lookup, Hset, decide_False; [done|].
    rewrite description_set, Hb. by intros [? ?].
Qed.

(** C4, as stated, fails: an item created with description ["blue"] has
    description [None] after [PUT /items/1] with body
    [{"description": null}]. *)
Lemma update_clears_description :
  Dict.get 1 (items_db (state_after [POST_items blue_widget_body]))
    ≫= (.!! "description") = Some (PyStr "blue") ∧
  null_description_body !! "description" = Some JNull ∧
  status_of (dispatch (PUT_item 1 null_description_body)
               (state_after [POST_items blue_widget_body])).1 = 200 ∧
  Dict.get 1 (items_db (dispatch (PUT_item 1 null_description_body)
                          (state_after [POST_items blue_widget_body])).2)
    ≫= (.!! "description") = Some PyNone.
Proof. split_and!; by vm_compute. Qed.

(** ** The scenario of the specification *)

(** C9: on the empty store, [POST /items] with body
    [{name: "Widget", price: 9.99}] (no [description], no [quantity]) is
    answered 201 with the record
    [{id: 1, name: "Widget", description: None, price: 9.99, quantity: 0}],
    which is then the only entry of the mapping, and the counter is 2. *)
Theorem first_create_scenario :
  widget_body !! "description" = None ∧
  widget_body !! "quantity" = None ∧
  Item.validate widget_body = Some (Item.mk "Widget" None 9.99 0) ∧
  dispatch (POST_items widget_body) init_state =
    (Success 201 (MessageBody "Item created successfully" widget_record),
     mkState [(1, widget_record)] 2) ∧
  widget_record !! "id" = Some (PyInt 1) ∧
  widget_record !! "name" = Some (PyStr "Widget") ∧
  widget_record !! "description" = Some PyNone ∧
  widget_record !! "price" = Some (PyFloat 9.99) ∧
  widget_record !! "quantity" = Some (PyInt 0) ∧
  dom widget_record = list_to_set ["id"; "name"; "description"; "price"; "quantity"].
Proof. split_and!; by vm_compute. Qed.

(** ** The theorems at concrete runs *)

Lemma ids_strictly_increasing_witness :
  assigned_ids (trace_of scenario) = [1; 2; 3] ∧
  1 < item_id_counter (state_after scenario).
Proof.
  split; [by vm_compute|].
  apply (proj2 (proj2 (ids_strictly_increasing scenario)) 2%nat 1).
  vm_compute. left.
Defined.

Lemma update_overwrites_present_fields_witness :
  ∃ updated : pydict,
    (update_item 1 price_only_update (state_after two_creates)).1 =
      Return (MessageBody "Item updated successfully" updated) ∧
    updated !! "price" = Some (PyFloat 12.5) ∧
    updated !! "name" = Some (PyStr "Widget") ∧
    updated !! "id" = Some (PyInt 1).
Proof.
  destruct (update_overwrites_present_fields 1 price_only_update
              (state_after two_creates) widget_record)
    as (updated & Hupd & _ & Hfields & Hother & Hid & _); [by vm_compute|].
  exists updated. split_and!.
  - by rewrite Hupd.
  - rewrite (Hfields "price" (PyFloat 12.5)); [by vm_compute|].
    unfold ItemUpdate.dict. simpl. do 2 right. left.
  - rewrite (Hfields "name" PyNone); [by vm_compute|]. left.
  - by rewrite Hid.
Defined.

Lemma update_explicit_null_witness :
  ∃ updated : pydict,
    Dict.get 1 (items_db (dispatch (PUT_item 1 null_description_body)
                            (state_after [POST_items blue_widget_body])).2)
      = Some updated ∧
    updated !! "description" = Some PyNone.
Proof.
  destruct (update_explicit_null 1 null_description_body null_description_update
              (state_after [POST_items blue_widget_body])
              (<["id" := PyInt 1]>
                 (<["name" := PyStr "Widget"]>
                    (<["description" := PyStr "blue"]>
                       (<["price" := PyFloat 1]> (<["quantity" := PyInt 0]> ∅))))))
    as (updated & _ & Hget & Hnull & _); [by vm_compute | by vm_compute |].
  exists updated. split; [exact Hget | by apply Hnull].
Defined.

Lemma delete_removes_item_witness :
  (delete_item 1 (state_after two_creates)).1 =
    Return (MessageBody "Item deleted successfully" widget_record) ∧
  (dispatch (GET_item 1)
     (run [POST_items widget_body; GET_items]
        (delete_item 1 (state_after two_creates)).2).2).1 =
    Failure 404 "Item not found".
Proof.
  destruct (delete_removes_item two_creates [POST_items widget_body; GET_items]
              1 widget_record) as (Hret & _ & _ & _ & _ & Hlater);
    [by vm_compute | by split].
Defined.

Lemma not_found_iff_absent_witness :
  (get_item 7 (state_after two_creates)).1 = not_found ∧
  (update_item 7 price_only_update (state_after two_creates)).2 =
    state_after two_creates.
Proof.
  destruct (not_found_iff_absent 7 price_only_update (state_after two_creates))
    as (Hget & _ & _ & _ & Hsame).
  split; [apply Hget; by vm_compute | apply Hsame; by vm_compute].
Defined.

Lemma list_returns_all_items_witness :
  Dict.len (items_db (state_after scenario)) = 2 ∧
  ∃ k, Dict.get k (items_db (state_after scenario)) =
         Some (<["id" := PyInt 3]> widget_record).
Proof.
  destruct (list_returns_all_items scenario) as (_ & Hitems & _ & Hcount).
  split; [rewrite Hcount; by vm_compute|].
  apply Hitems. vm_compute. right. left.
Defined.

(** ** The counter *)

Lemma run_counter reqs st :
  item_id_counter (run reqs st).2 =
    item_id_counter st + count_of successful_create (run reqs st).1.
Proof.
  revert st. induction reqs as [|req reqs IH]; intros st.
  - unfold count_of. simpl. lia.
  - rewrite run_cons. cbn [fst snd]. rewrite count_of_cons, IH.
    enough (item_id_counter (dispatch req st).2 =
              item_id_counter st
              + (if successful_create (req, (dispatch req st).1) then 1 else 0))
      by lia.
    destruct req as [| |i|b|i b|i]; cbn [dispatch]; unfold respond.
    + simpl. lia.
    + simpl. lia.
    + unfold get_item. destruct (Dict.get i (items_db st)); simpl; lia.
    + destruct (Item.validate b); simpl; lia.
    + destruct (ItemUpdate.validate b); [|simpl; lia].
      unfold update_item. destruct (Dict.get i (items_db st)); simpl; lia.
    + unfold delete_item, Dict.pop. destruct (Dict.get i (items_db st)); simpl; lia.
Qed.

(** X2: after any run from the initial state the counter is 1 plus the
    number of successful creates: deletes, updates and failed requests never
    move it. *)
Theorem counter_counts_creates (reqs : list request) :
  item_id_counter (state_after reqs) =
    1 + count_of successful_create (trace_of reqs).
Proof. unfold state_after, trace_of. by rewrite run_counter. Qed.

(** ** Order of the mapping *)

Lemma sorted_keys_remove (k : Z) (d : list (Z * pydict)) :
  StronglySorted Z.lt (Dict.keys d) → StronglySorted Z.lt (Dict.keys (Dict.remove k d)).
Proof.
  unfold Dict.keys. induction d as [|[k' v'] d IH]; simpl; [done|].
  intros [Hd Hall]%StronglySorted_inv. case_decide; simpl; [done|].
  constructor; [auto|].
  rewrite Forall_forall in Hall |- *. intros x Hx. apply Hall.
  by apply (keys_remove_subseteq k d).
Qed.

Lemma dispatch_sorted req st :
  store_inv st →
  StronglySorted Z.lt (Dict.keys (items_db st)) →
  StronglySorted Z.lt (Dict.keys (items_db (dispatch req st).2)).
Proof.
  intros Hinv Hs. destruct req as [| |i|b|i b|i]; cbn [dispatch];
    rewrite ?respond_state; try done.
  - unfold get_item. by destruct (Dict.get i (items_db st)).
  - destruct (Item.validate b) as [item|]; [|done].
    rewrite respond_state, create_item_state by done. simpl.
    unfold Dict.keys. rewrite fmap_app. apply StronglySorted_app_2.
    + intros k1 k2 Hk1 ->%list_elem_of_singleton.
      by apply (inv_below _ Hinv) in Hk1 as [_ ?].
    + done.
    + repeat constructor.
  - destruct (ItemUpdate.validate b) as [u|]; [|done].
    rewrite respond_state. unfold update_item.
    destruct (Dict.get i (items_db st)); [|done]. simpl. by rewrite keys_mutate.
  - unfold delete_item, Dict.pop.
    destruct (Dict.get i (items_db st)); [|done]. simpl.
    by apply sorted_keys_remove.
Qed.

Lemma run_sorted reqs st :
  store_inv st →
  StronglySorted Z.lt (Dict.keys (items_db st)) →
  StronglySorted Z.lt (Dict.keys (items_db (run reqs st).2)).
Proof.
  revert st. induction reqs as [|req reqs IH]; intros st Hinv Hs; [done|].
  rewrite run_cons. cbn [snd].
  apply IH; [by apply dispatch_inv | by apply dispatch_sorted].
Qed.

(** ** Shape of the stored records *)

Lemma new_item_dom counter item : dom (new_item counter item) = record_keys.
Proof.
  unfold new_item, Item.dict, record_keys.
  rewrite dom_union_L, !dom_insert_L, dom_empty_L, dom_singleton_L.
  simpl. set_solver.
Qed.

Lemma store_fields_id u stored_item :
  store_fields (ItemUpdate.dict_exclude_unset u) stored_item !! "id" =
    stored_item !! "id".
Proof.
  rewrite store_fields_lookup, dict_lookup_other; [by case_decide|].
  unfold ItemUpdate.field_names. rewrite !not_elem_of_cons.
  split_and!; try done. apply not_elem_of_nil.
Qed.

Lemma store_fields_dom u stored_item :
  dom stored_item = record_keys →
  dom (store_fields (ItemUpdate.dict_exclude_unset u) stored_item) = record_keys.
Proof.
  intros Hdom. rewrite <- Hdom. apply set_eq. intros k.
  rewrite !elem_of_dom, store_fields_lookup.
  case_decide; [|done].
  destruct (list_to_map (ItemUpdate.dict u) !! k) as [v|] eqn:Hk; [|done].
  split; [intros _|by eauto]. apply elem_of_dom. rewrite Hdom.
  destruct (decide (k ∈ ItemUpdate.field_names)) as [Hin|Hout].
  - unfold ItemUpdate.field_names, record_keys in *.
    rewrite elem_of_list_to_set. rewrite !elem_of_cons in *. tauto.
  - by rewrite dict_lookup_other in Hk.
Qed.

Lemma Forall_set (P : Z * pydict → Prop) k v d :
  Forall P d → P (k, v) → Forall P (Dict.set k v d).
Proof.
  intros Hd Hv. induction d as [|[k' v'] d IH]; simpl.
  - by constructor.
  - apply Forall_cons in Hd as [Hhd Htl]. case_decide; subst; constructor; auto.
Qed.

Lemma Forall_mutate (P : Z * pydict → Prop) k v d :
  Forall P d → P (k, v) → Forall P (Dict.mutate k v d).
Proof.
  intros Hd Hv. induction d as [|[k' v'] d IH]; simpl; [done|].
  apply Forall_cons in Hd as [Hhd Htl]. case_decide; subst; constructor; auto.
Qed.

Lemma Forall_remove (P : Z * pydict → Prop) k d :
  Forall P d → Forall P (Dict.remove k d).
Proof.
  intros Hd. induction d as [|[k' v'] d IH]; simpl; [done|].
  apply Forall_cons in Hd as [Hhd Htl]. case_decide; [done|constructor; auto].
Qed.

Lemma dispatch_well_formed req st :
  Forall well_formed_entry (items_db st) →
  Forall well_formed_entry (items_db (dispatch req st).2).
Proof.
  intros Hwf. destruct req as [| |i|b|i b|i]; cbn [dispatch];
    rewrite ?respond_state; try done.
  - unfold get_item. by destruct (Dict.get i (items_db st)).
  - destruct (Item.validate b) as [item|]; [|done].
    rewrite respond_state. simpl. apply Forall_set; [done|].
    split; [apply new_item_id | apply new_item_dom].
  - destruct (ItemUpdate.validate b) as [u|]; [|done].
    rewrite respond_state. unfold update_item.
    destruct (Dict.get i (items_db st)) as [stored|] eqn:Hget; [|done]. simpl.
    apply Forall_mutate; [done|].
    apply get_elem_of in Hget. rewrite Forall_forall in Hwf.
    destruct (Hwf _ Hget) as [Hid Hdom]. simpl in *.
    split; simpl; [by rewrite store_fields_id | by apply store_fields_dom].
  - unfold delete_item, Dict.pop.
    destruct (Dict.get i (items_db st)); [|done]. simpl. by apply Forall_remove.
Qed.

Lemma run_well_formed reqs st :
  Forall well_formed_entry (items_db st) →
  Forall well_formed_entry (items_db (run reqs st).2).
Proof.
  revert st. induction reqs as [|req reqs IH]; intros st Hwf; [done|].
  rewrite run_cons. cbn [snd]. by apply IH, dispatch_well_formed.
Qed.

Lemma ids_of_well_formed (d : list (Z * pydict)) :
  Forall well_formed_entry d →
  (λ item : pydict, item !! "id") <$> Dict.values d = (Some ∘ PyInt) <$> Dict.keys d.
Proof.
  unfold Dict.values, Dict.keys. induction 1 as [|[k v] d [Hid _] _ IH]; [done|].
  rewrite !fmap_cons. simpl in Hid |- *. rewrite Hid. by f_equal.
Qed.

(** X3: in every reachable state the keys of the mapping are in strictly
    ascending order, each between 1 and the counter, and the ["id"] entries
    of the records that [get_all_items] lists are those keys in that order:
    the list is by ascending id. *)
Theorem items_listed_by_ascending_id (reqs : list request) :
  StronglySorted Z.lt (Dict.keys (items_db (state_after reqs))) ∧
  Forall (λ k, 1 ≤ k < item_id_counter (state_after reqs))
         (Dict.keys (items_db (state_after reqs))) ∧
  (λ item : pydict, item !! "id") <$> Dict.values (items_db (state_after reqs)) =
    (Some ∘ PyInt) <$> Dict.keys (items_db (state_after reqs)).
Proof.
  split_and!.
  - apply run_sorted; [apply store_inv_init | constructor].
  - apply Forall_forall, (inv_below _ (state_after_inv reqs)).
  - apply ids_of_well_formed, run_well_formed. constructor.
Qed.

(** X4: in every reachable state, the record held at an id carries that
    id as its ["id"], has exactly the keys [id], [name], [description],
    [price], [quantity], and the id is at least 1 and below the counter. *)
Theorem stored_record_shape (reqs : list request) (item_id : Z) (item : pydict) :
  Dict.get item_id (items_db (state_after reqs)) = Some item →
  item !! "id" = Some (PyInt item_id) ∧
  dom item = record_keys ∧
  1 ≤ item_id < item_id_counter (state_after reqs).
Proof.
  intros Hget.
  assert (Forall well_formed_entry (items_db (state_after reqs))) as Hwf
    by (apply run_well_formed; constructor).
  rewrite Forall_forall in Hwf.
  destruct (Hwf _ (get_elem_of _ _ _ Hget)) as [Hid Hdom].
  split; [done|]. split; [done|].
  apply (inv_below _ (state_after_inv reqs)), get_is_Some. by rewrite Hget.
Qed.

(** ** Ids outside the assigned range *)

(** X5: in every reachable state, an id below 1 or not below the counter
    has never been assigned: [get_item], [update_item] and [delete_item]
    raise 404 on it and leave the state as it is. *)
Theorem unassigned_id_not_found
    (reqs : list request) (item_id : Z) (item_update : ItemUpdate.t) :
  item_id < 1 ∨ item_id_counter (state_after reqs) ≤ item_id →
  get_item item_id (state_after reqs) = (not_found, state_after reqs) ∧
  update_item item_id item_update (state_after reqs) = (not_found, state_after reqs) ∧
  delete_item item_id (state_after reqs) = (not_found, state_after reqs).
Proof.
  intros Hout.
  assert (Dict.get item_id (items_db (state_after reqs)) = None) as Habs.
  { apply get_None. intros Hin.
    apply (inv_below _ (state_after_inv reqs)) in Hin. lia. }
  unfold get_item, update_item, delete_item, Dict.pop. by rewrite Habs.
Qed.

(** ** Create *)

Lemma remove_set_fresh (k : Z) (v : pydict) (d : list (Z * pydict)) :
  k ∉ Dict.keys d → Dict.remove k (Dict.set k v d) = d.
Proof.
  unfold Dict.keys. induction d as [|[k' v'] d IH]; simpl.
  - by rewrite decide_True.
  - rewrite not_elem_of_cons. intros [Hne Hd].
    rewrite decide_False by done. simpl. rewrite decide_False by done.
    by rewrite IH.
Qed.

(** X6: in every reachable state, [create_item] adds its record as the
    last entry of the mapping and touches no other entry: the next
    [get_all_items] lists the previous items in their order, then the new
    one, with the count one higher. *)
Theorem create_appends (reqs : list request) (item : Item.t) :
  items_db (create_item item (state_after reqs)).2 =
    (items_db (state_after reqs)
       ++ [(item_id_counter (state_after reqs),
            new_item (item_id_counter (state_after reqs)) item)])%list ∧
  (get_all_items (create_item item (state_after reqs)).2).1 =
    Return (ItemsBody
              (Dict.values (items_db (state_after reqs))
                 ++ [new_item (item_id_counter (state_after reqs)) item])%list
              (Dict.len (items_db (state_after reqs)) + 1)) ∧
  (∀ k, k ≠ item_id_counter (state_after reqs) →
     Dict.get k (items_db (create_item item (state_after reqs)).2) =
       Dict.get k (items_db (state_after reqs))).
Proof.
  pose proof (create_item_state item _ (state_after_inv reqs)) as Hst.
  split_and!.
  - by rewrite Hst.
  - unfold get_all_items. rewrite Hst. simpl.
    unfold Dict.values, Dict.len. rewrite fmap_app, length_app. simpl.
    do 3 f_equal. lia.
  - intros k Hne. simpl. by apply get_set_ne.
Qed.

(** X7: in every reachable state, deleting the id that a create has just
    assigned returns the created record and restores the mapping as it was
    before the create; the counter stays advanced, so the id is not given
    out again. *)
Theorem create_then_delete (reqs : list request) (item : Item.t) :
  delete_item (item_id_counter (state_after reqs))
      (create_item item (state_after reqs)).2 =
    (Return (MessageBody "Item deleted successfully"
               (new_item (item_id_counter (state_after reqs)) item)),
     mkState (items_db (state_after reqs))
             (item_id_counter (state_after reqs) + 1)).
Proof.
  unfold delete_item, Dict.pop. simpl. rewrite get_set_eq.
  by rewrite remove_set_fresh by apply counter_fresh, state_after_inv.
Qed.

(** ** Composition of updates *)

Lemma mutate_comm (i j : Z) (v w : pydict) (d : list (Z * pydict)) :
  i ≠ j →
  Dict.mutate i v (Dict.mutate j w d) = Dict.mutate j w (Dict.mutate i v d).
Proof.
  intros Hne. induction d as [|[k u] d IH]; simpl; [done|].
  destruct (decide (k = j)) as [Hj|Hj], (decide (k = i)) as [Hi|Hi]; simpl;
    repeat case_decide; congruence.
Qed.

(** X8: updates of two different ids commute: either order leaves the
    same store, and each update returns what it would have returned without
    the other. *)
Theorem updates_of_distinct_ids_commute
    (i j : Z) (u1 u2 : ItemUpdate.t) (st : state) :
  i ≠ j →
  (update_item j u2 (update_item i u1 st).2).2 =
    (update_item i u1 (update_item j u2 st).2).2 ∧
  (update_item j u2 (update_item i u1 st).2).1 = (update_item j u2 st).1 ∧
  (update_item i u1 (update_item j u2 st).2).1 = (update_item i u1 st).1.
Proof.
  intros Hne. unfold update_item.
  destruct (Dict.get i (items_db st)) as [si|] eqn:Hi,
           (Dict.get j (items_db st)) as [sj|] eqn:Hj; simpl;
    rewrite ?get_mutate_ne by done; rewrite ?Hi, ?Hj; simpl; try done.
  split_and!; [|done|done]. f_equal. by apply mutate_comm.
Qed.

(** X9: two updates of the same stored item in a row: the second returns
    (and the store then holds) a record in which each field has the value of
    the second input if that sets it, else the value of the first input if
    that sets it, else the stored value; keys that are not fields keep the
    stored value. *)
Theorem later_update_wins
    (item_id : Z) (u1 u2 : ItemUpdate.t) (st : state) (stored_item : pydict) :
  Dict.get item_id (items_db st) = Some stored_item →
  ∃ updated : pydict,
    update_item item_id u2 (update_item item_id u1 st).2 =
      (Return (MessageBody "Item updated successfully" updated),
       mkState (Dict.mutate item_id updated (items_db st)) (item_id_counter st)) ∧
    (∀ k v1 v2,
       (k, v1) ∈ ItemUpdate.dict u1 → (k, v2) ∈ ItemUpdate.dict u2 →
       updated !! k =
         if decide (k ∈ ItemUpdate.fields_set u2) then Some v2
         else if decide (k ∈ ItemUpdate.fields_set u1) then Some v1
         else stored_item !! k) ∧
    (∀ k, k ∉ ItemUpdate.field_names → updated !! k = stored_item !! k).
Proof.
  intros Hget.
  exists (store_fields (ItemUpdate.dict_exclude_unset u2)
            (store_fields (ItemUpdate.dict_exclude_unset u1) stored_item)).
  split_and!.
  - unfold update_item. rewrite Hget. cbn [fst snd items_db item_id_counter].
    rewrite get_mutate_eq by (by rewrite Hget). by rewrite mutate_mutate.
  - intros k v1 v2 [_ H1]%dict_lookup_field [_ H2]%dict_lookup_field.
    by rewrite !store_fields_lookup, H1, H2.
  - intros k Hk. rewrite !store_fields_lookup, !dict_lookup_other by done.
    by repeat case_decide.
Qed.

(** ** A deleted id *)

(** X13: in every reachable state, once [delete_item] has been called on
    an id below the counter (whether it held a record or not), that id is
    gone for good: after any further requests [get_item], [update_item] and
    [delete_item] on it raise 404 and change nothing. *)
Theorem deleted_id_stays_gone
    (reqs later : list request) (item_id : Z) (item_update : ItemUpdate.t) :
  item_id < item_id_counter (state_after reqs) →
  (get_item item_id (run later (delete_item item_id (state_after reqs)).2).2).1 =
    not_found ∧
  update_item item_id item_update
      (run later (delete_item item_id (state_after reqs)).2).2 =
    (not_found, (run later (delete_item item_id (state_after reqs)).2).2) ∧
  delete_item item_id (run later (delete_item item_id (state_after reqs)).2).2 =
    (not_found, (run later (delete_item item_id (state_after reqs)).2).2).
Proof.
  intros Hlt.
  assert (retired item_id (delete_item item_id (state_after reqs)).2) as Hret.
  { unfold delete_item, Dict.pop.
    destruct (Dict.get item_id (items_db (state_after reqs))) eqn:Hget;
      (split; simpl; [done|]); [|done].
    apply get_remove_eq, (inv_nodup _ (state_after_inv reqs)). }
  apply (run_retired _ later) in Hret as [_ Habs].
  unfold get_item, update_item, Dict.pop.
  rewrite Habs. split_and!; [done|done|].
  unfold delete_item at 1, Dict.pop. by rewrite Habs.
Qed.

(** ** Explicit null on any field *)

Lemma validate_update_null (body : jobject) (u : ItemUpdate.t) (k : string) :
  ItemUpdate.validate body = Some u →
  k ∈ ItemUpdate.field_names →
  body !! k = Some JNull →
  k ∈ ItemUpdate.fields_set u ∧
  list_to_map (M := pydict) (ItemUpdate.dict u) !! k = Some PyNone.
Proof.
  intros Hval Hk Hnull. split.
  { rewrite (proj1 (validate_update _ _ Hval)).
    apply elem_of_intersection. split.
    - apply elem_of_dom. by rewrite Hnull.
    - by apply elem_of_list_to_set. }
  unfold ItemUpdate.validate in Hval.
  destruct (defaulted _ None "name" body) as [n|] eqn:Hn; [simpl in Hval|done].
  destruct (defaulted _ None "description" body) as [d|] eqn:Hd; [simpl in Hval|done].
  destruct (defaulted _ None "price" body) as [p|] eqn:Hp; [simpl in Hval|done].
  destruct (defaulted _ None "quantity" body) as [q|] eqn:Hq; [simpl in Hval|done].
  injection Hval as <-.
  unfold ItemUpdate.field_names in Hk. rewrite !elem_of_cons, elem_of_nil in Hk.
  unfold defaulted in *.
  destruct Hk as [->|[->|[->|[->|[]]]]]; rewrite Hnull in *; simpl in *.
  - by injection Hn as <-.
  - by injection Hd as <-.
  - by injection Hp as <-.
  - by injection Hq as <-.
Qed.

(** X10: for every stored item and every valid update body, a field
    ([name], [description], [price] or [quantity]) that the body sets
    explicitly to [null] is [None] in the returned record and in the store
    afterwards, also [name] and [price], which a create requires. *)
Theorem update_null_clears_field
    (item_id : Z) (body : jobject) (item_update : ItemUpdate.t) (st : state)
    (stored_item : pydict) (k : string) :
  Dict.get item_id (items_db st) = Some stored_item →
  ItemUpdate.validate body = Some item_update →
  k ∈ ItemUpdate.field_names →
  body !! k = Some JNull →
  ∃ updated : pydict,
    dispatch (PUT_item item_id body) st =
      (Success 200 (MessageBody "Item updated successfully" updated),
       mkState (Dict.mutate item_id updated (items_db st)) (item_id_counter st)) ∧
    Dict.get item_id (items_db (dispatch (PUT_item item_id body) st).2) = Some updated ∧
    updated !! k = Some PyNone.
Proof.
  intros Hget Hval Hk Hnull.
  destruct (validate_update_null _ _ _ Hval Hk Hnull) as [Hset Hnone].
  exists (store_fields (ItemUpdate.dict_exclude_unset item_update) stored_item).
  cbn [dispatch]. rewrite Hval. unfold respond, update_item. rewrite Hget.
  cbn [fst snd items_db]. split_and!; [done| |].
  - apply get_mutate_eq. by rewrite Hget.
  - by rewrite store_fields_lookup, decide_True, Hnone.
Qed.

(** ** Further theorems at concrete runs *)

Lemma stored_record_shape_witness :
  gadget_record !! "id" = Some (PyInt 2) ∧
  dom gadget_record = record_keys ∧
  1 ≤ 2 < item_id_counter (state_after scenario).
Proof. apply (stored_record_shape scenario 2 gadget_record). by vm_compute. Defined.

Lemma unassigned_id_not_found_witness :
  get_item 0 (state_after two_creates) = (not_found, state_after two_creates) ∧
  update_item 0 price_only_update (state_after two_creates) =
    (not_found, state_after two_creates) ∧
  delete_item 0 (state_after two_creates) = (not_found, state_after two_creates).
Proof. apply (unassigned_id_not_found two_creates 0 price_only_update). left. lia. Defined.

Lemma updates_of_distinct_ids_commute_witness :
  (update_item 2 name_update
     (update_item 1 price_only_update (state_after two_creates)).2).2 =
    (update_item 1 price_only_update
       (update_item 2 name_update (state_after two_creates)).2).2.
Proof.
  apply (updates_of_distinct_ids_commute 1 2 price_only_update name_update
           (state_after two_creates)).
  lia.
Defined.

Lemma later_update_wins_witness :
  ∃ updated : pydict,
    (update_item 1 name_update
       (update_item 1 price_only_update (state_after two_creates)).2).1 =
      Return (MessageBody "Item updated successfully" updated) ∧
    updated !! "name" = Some (PyStr "Gizmo") ∧
    updated !! "price" = Some (PyFloat 12.5).
Proof.
  destruct (later_update_wins 1 price_only_update name_update
              (state_after two_creates) widget_record)
    as (updated & Hupd & Hfields & _); [by vm_compute|].
  exists updated. split_and!.
  - by rewrite Hupd.
  - rewrite (Hfields "name" PyNone (PyStr "Gizmo")); [by vm_compute|left|left].
  - rewrite (Hfields "price" (PyFloat 12.5) PyNone); [by vm_compute| |];
      unfold ItemUpdate.dict; simpl; do 2 right; left.
Defined.

Lemma update_null_clears_field_witness :
  ∃ updated : pydict,
    Dict.get 1 (items_db (dispatch (PUT_item 1 null_name_body)
                            (state_after two_creates)).2) = Some updated ∧
    updated !! "name" = Some PyNone.
Proof.
  destruct (update_null_clears_field 1 null_name_body null_name_update
              (state_after two_creates) widget_record "name")
    as (updated & _ & Hget & Hnone);
    [by vm_compute | by vm_compute | left | by vm_compute |].
  by exists updated.
Defined.

Lemma deleted_id_stays_gone_witness :
  delete_item 1
      (run [POST_items widget_body; PUT_item 2 null_name_body]
         (delete_item 1 (state_after two_creates)).2).2 =
    (not_found,
     (run [POST_items widget_body; PUT_item 2 null_name_body]
        (delete_item 1 (state_after two_creates)).2).2).
Proof.
  apply (deleted_id_stays_gone two_creates
           [POST_items widget_body; PUT_item 2 null_name_body] 1 price_only_update).
  by vm_compute.
Defined.

(** ** Validation with the installed validators *)




Lemma ap4_Raised {A B C D E} (f : A → B → C → D → E)
    (a : validation A) (b : validation B) (c : validation C) (d : validation D) :
  ap (ap (ap (ap (Valid f) a) b) c) d = Raised ↔
    a = Raised ∨ b = Raised ∨ c = Raised ∨ d = Raised.
Proof. destruct a, b, c, d; simpl; intuition congruence. Qed.




(** ** Encoding of the answer *)

Lemma item_renderable_spec (item : pydict) :
  item_renderable item = true ↔
    ∀ k v, item !! k = Some v → value_renderable v = true.
Proof.
  unfold item_renderable. rewrite forallb_forall. split.
  - intros Hall k v Hk. apply Hall, list_elem_of_In, list_elem_of_fmap.
    exists (k, v). split; [done|]. by apply elem_of_map_to_list.
  - intros Hall v [[k v'] [-> Hin]]%list_elem_of_In%list_elem_of_fmap.
    apply elem_of_map_to_list in Hin. by apply (Hall k).
Qed.

Lemma new_item_explicit (counter : Z) (item : Item.t) :
  new_item counter item =
    <["id" := PyInt counter]>
      (<["name" := PyStr (Item.name item)]>
         (<["description" := from_option PyStr PyNone (Item.description item)]>
            (<["price" := PyFloat (Item.price item)]>
               (<["quantity" := PyInt (Item.quantity item)]> ∅)))).
Proof.
  unfold new_item, Item.dict. apply map_eq. intros k.
  rewrite lookup_union, lookup_singleton. repeat (rewrite lookup_insert).
  rewrite lookup_empty. repeat case_decide; subst; done.
Qed.

Lemma new_item_renderable (counter : Z) (item : Item.t) :
  item_renderable (new_item counter item) = is_finite (Item.price item).
Proof.
  destruct (is_finite (Item.price item)) eqn:Hfin.
  - apply item_renderable_spec. intros k v. rewrite new_item_explicit.
    repeat (rewrite lookup_insert; case_decide; [intros [= <-]; simpl; try done|]).
    + by destruct (Item.description item).
    + by rewrite lookup_empty.
  - destruct (item_renderable (new_item counter item)) eqn:Hr; [|done].
    rewrite item_renderable_spec in Hr.
    specialize (Hr "price" (PyFloat (Item.price item))).
    rewrite new_item_explicit in Hr. simpl in Hr. rewrite <- Hfin. symmetry.
    apply Hr. by rewrite !lookup_insert_ne, lookup_insert_eq by done.
Qed.

Section installed_validators.
Variable V : validators.




Lemma render_state (r : response * state) : (render r).2 = r.2.
Proof. done. Qed.

Lemma serve_state_cases (req : request) (st : state) :
  (serve V req st).2 = st ∨ (serve V req st).2 = (dispatch req st).2 ∨
  (∃ body item, req = POST_items body ∧ parse_item V body = Valid item ∧
                (serve V req st).2 = (create_item item st).2) ∨
  (∃ item_id body u, req = PUT_item item_id body ∧
                     parse_item_update V body = Valid u ∧
                     (serve V req st).2 = (update_item item_id u st).2).
Proof.
  destruct req as [| |i|b|i b|i]; cbn [serve]; rewrite ?render_state; auto.
  - destruct (parse_item V b) as [item| |] eqn:Hp; auto.
    right. right. left. exists b, item. by rewrite render_state, respond_state.
  - destruct (parse_item_update V b) as [u| |] eqn:Hp; auto.
    right. right. right. exists i, b, u. by rewrite render_state, respond_state.
Qed.

(** X1: for each of the six routes, with any validators: a [GET] never
    changes the store; a request answered with the validation error (422) or
    with an [HTTPException] leaves the store as it was, and the status of
    the exception is 404; a success is answered 200 or 201 and its body has
    no float that JSON cannot encode; and no request lowers the counter. *)
Theorem reads_and_refusals_leave_store (req : request) (st : state) :
  (is_write req = false → (serve V req st).2 = st) ∧
  ((serve V req st).1 = Answered ValidationError → (serve V req st).2 = st) ∧
  (∀ status detail,
     (serve V req st).1 = Answered (Failure status detail) →
     status = 404 ∧ (serve V req st).2 = st) ∧
  (∀ status b,
     (serve V req st).1 = Answered (Success status b) →
     status ∈ [200; 201] ∧ body_renderable b = true) ∧
  item_id_counter st ≤ item_id_counter (serve V req st).2.
Proof.
  split_and!.
  - destruct req as [| |i|b|i b|i]; try done; intros _; cbn [serve];
      rewrite render_state; cbn [dispatch]; rewrite respond_state; try done.
    unfold get_item. by destruct (Dict.get i (items_db st)).
  - destruct req as [| |i|b|i b|i]; cbn [serve dispatch]; unfold render, respond.
    + done.
    + simpl. by case_match.
    + unfold get_item. destruct (Dict.get i (items_db st)); simpl;
        [by case_match | done].
    + destruct (parse_item V b); simpl; [by case_match|done|done].
    + destruct (parse_item_update V b); [|done|done].
      unfold update_item. destruct (Dict.get i (items_db st)); simpl;
        [by case_match | done].
    + unfold delete_item, Dict.pop. destruct (Dict.get i (items_db st)); simpl;
        [by case_match | done].
  - intros status detail.
    destruct req as [| |i|b|i b|i]; cbn [serve dispatch]; unfold render, respond.
    + done.
    + simpl. by case_match.
    + unfold get_item. destruct (Dict.get i (items_db st)); simpl;
        [by case_match | by intros [= <- _]].
    + destruct (parse_item V b); simpl; [by case_match|done|done].
    + destruct (parse_item_update V b); [|done|done].
      unfold update_item. destruct (Dict.get i (items_db st)); simpl;
        [by case_match | by intros [= <- _]].
    + unfold delete_item, Dict.pop. destruct (Dict.get i (items_db st)); simpl;
        [by case_match | by intros [= <- _]].
  - intros status b.
    destruct req as [| |i|bd|i bd|i]; cbn [serve dispatch]; unfold render, respond.
    + simpl. intros [= <- <-]. split; [left|done].
    + simpl. case_match eqn:Hr; [|done]. intros [= <- <-]. split; [left|done].
    + unfold get_item. destruct (Dict.get i (items_db st)); simpl; [|done].
      case_match eqn:Hr; [|done]. intros [= <- <-]. split; [left|done].
    + destruct (parse_item V bd); simpl; [|done|done].
      case_match eqn:Hr; [|done]. intros [= <- <-]. split; [right; left|done].
    + destruct (parse_item_update V bd); [|done|done].
      unfold update_item. destruct (Dict.get i (items_db st)); simpl; [|done].
      case_match eqn:Hr; [|done]. intros [= <- <-]. split; [left|done].
    + unfold delete_item, Dict.pop. destruct (Dict.get i (items_db st)); simpl;
        [|done].
      case_match eqn:Hr; [|done]. intros [= <- <-]. split; [left|done].
  - destruct (serve_state_cases req st)
      as [->|[->|[(b & item & _ & _ & ->)|(i & b & u & _ & _ & ->)]]].
    + done.
    + apply dispatch_counter_mono.
    + simpl. lia.
    + unfold update_item. destruct (Dict.get i (items_db st)); simpl; lia.
Qed.

(** X14: a create whose validated price is infinite or not a number is
    answered 500, because the record cannot be encoded, but only after
    [create_item] has run: the store holds the record, the counter has
    advanced, and reading that id is answered 500 as well. *)
Theorem create_answered_500_after_storing
    (body : jobject) (item : Item.t) (st : state) :
  parse_item V body = Valid item →
  is_finite (Item.price item) = false →
  serve V (POST_items body) st = (InternalServerError, (create_item item st).2) ∧
  item_id_counter (serve V (POST_items body) st).2 = item_id_counter st + 1 ∧
  Dict.get (item_id_counter st) (items_db (serve V (POST_items body) st).2) =
    Some (new_item (item_id_counter st) item) ∧
  (serve V (GET_item (item_id_counter st)) (serve V (POST_items body) st).2).1 =
    InternalServerError.
Proof.
  intros Hparse Hinf.
  assert (serve V (POST_items body) st =
            (InternalServerError, (create_item item st).2)) as ->.
  { cbn [serve]. rewrite Hparse. unfold render, respond. simpl.
    by rewrite new_item_renderable, Hinf. }
  split_and!; [done|done| |].
  - simpl. apply get_set_eq.
  - cbn [serve dispatch]. unfold render, respond, get_item. simpl.
    rewrite get_set_eq. simpl. by rewrite new_item_renderable, Hinf.
Qed.




Hypothesis str_validator_string : ∀ s, str_validator V (JStr s) = Valid s.
Hypothesis float_validator_float : ∀ f, float_validator V (JFloat f) = Valid f.



End installed_validators.

(** ** The validators by JSON type as an instance *)

Lemma field_required_of_option {A} (v : json → option A) k (body : jobject) :
  field (λ j, of_option (v j)) None k body = of_option (required v k body).
Proof. unfold field, required. by destruct (body !! k). Qed.

Lemma field_defaulted_of_option {A} (v : json → option A) dflt k (body : jobject) :
  field (λ j, of_option (v j)) (Some dflt) k body =
    of_option (defaulted v dflt k body).
Proof. unfold field, defaulted. by destruct (body !! k). Qed.

Lemma field_optional_of_option {A} (v : json → option A) k (body : jobject) :
  field (optional_validator (λ j, of_option (v j))) (Some None) k body =
    of_option (defaulted (validate_optional v) None k body).
Proof.
  unfold field, defaulted. destruct (body !! k) as [j|]; [|done].
  destruct j; simpl; try done; by destruct (v _).
Qed.

Lemma parse_item_json_typed (body : jobject) :
  parse_item json_typed body = of_option (Item.validate body).
Proof.
  unfold parse_item, Item.validate, json_typed. cbn [str_validator float_validator int_validator].
  rewrite !field_required_of_option, field_optional_of_option,
    field_defaulted_of_option.
  destruct (required validate_str "name" body),
    (defaulted (validate_optional validate_str) None "description" body),
    (required validate_float "price" body),
    (defaulted validate_int 0 "quantity" body); done.
Qed.

Lemma parse_item_update_json_typed (body : jobject) :
  parse_item_update json_typed body = of_option (ItemUpdate.validate body).
Proof.
  unfold parse_item_update, ItemUpdate.validate, json_typed.
  cbn [str_validator float_validator int_validator].
  rewrite !field_optional_of_option.
  destruct (defaulted (validate_optional validate_str) None "name" body),
    (defaulted (validate_optional validate_str) None "description" body),
    (defaulted (validate_optional validate_float) None "price" body),
    (defaulted (validate_optional validate_int) None "quantity" body); done.
Qed.

(** With the validators by JSON type, [serve] is [dispatch] followed by the
    encoding of the answer. *)
Lemma serve_json_typed (req : request) (st : state) :
  serve json_typed req st = render (dispatch req st).
Proof.
  destruct req as [| |i|b|i b|i]; cbn [serve dispatch]; try done.
  - rewrite parse_item_json_typed. by destruct (Item.validate b).
  - rewrite parse_item_update_json_typed. by destruct (ItemUpdate.validate b).
Qed.

Lemma of_option_not_Raised {A} (o : option A) : of_option o ≠ Raised.
Proof. by destruct o. Qed.


(** ** The theorems on the served request at concrete bodies *)


Lemma reads_and_refusals_leave_store_witness :
  (serve json_typed (PUT_item 7 null_description_body) (state_after two_creates)).2 =
    state_after two_creates.
Proof.
  destruct (reads_and_refusals_leave_store json_typed
              (PUT_item 7 null_description_body) (state_after two_creates))
    as (_ & _ & Hfail & _).
  apply (Hfail 404 "Item not found"). by vm_compute.
Defined.



Lemma create_answered_500_after_storing_witness :
  serve json_typed (POST_items infinite_price_body) init_state =
    (InternalServerError,
     (create_item (Item.mk "Widget" None infinity 0) init_state).2) ∧
  item_id_counter (serve json_typed (POST_items infinite_price_body) init_state).2 = 2.
Proof.
  destruct (create_answered_500_after_storing json_typed infinite_price_body
              (Item.mk "Widget" None infinity 0) init_state)
    as (Hserve & Hcounter & _); [by vm_compute | by vm_compute |].
  by split.
Defined.
